(** * add.py: a summation that logs its steps, and its command line

    A shallow embedding of [src/add.py] and of the fixtures of
    [src/test.py], together with the part of CPython's [logging] package
    and of the builtins ([sum], [int], [str], [%]-formatting,
    [str.splitlines]) that the two files call.

    Conventions.
    - Python's [int] is arbitrary precision: it is [Z].
    - A Python [str] is a [string]; the model covers texts whose
      characters are below 256 (the script only ever builds ASCII).
    - The variadic [*vargs] of [add] is the tuple of its arguments: a
      [list Z].
    - A call such as [logger.debug(msg, *args)] is an effect.  The
      program is a term of the small free monad [Prog]; the requests a
      program hands to its logger are read off the term ([requests]) and
      the logging framework interprets them on a [Logging.State]
      ([exec]).  In the vocabulary of the specification a record is
      "emitted" when the program hands it to the logger; the framework
      may then suppress it, depending on the configured level. *)

From Stdlib Require Import ZArith String Ascii List DecimalString DecimalPos Lia
  Permutation.
From stdpp Require Import gmap strings list.

Local Open Scope string_scope.
Local Open Scope Z_scope.

(** ** Python values and builtins *)

Module Py.

(** The values that [add.py] passes around: integers and tuples of
    integers. *)
Inductive value : Type :=
| VInt (z : Z)
| VTuple (items : list Z).

(** Exceptions that can reach the top level of the script. *)
Inductive exn : Type :=
| ValueError (literal : string)
| TypeError.

(** [str(z)] for an integer: decimal digits, [-] in front of a negative
    number. *)
Definition int_str (z : Z) : string :=
  NilEmpty.string_of_int (Z.to_int z).

(** [", ".join(...)] over already rendered items. *)
Fixpoint join (sep : string) (items : list string) : string :=
  match items with
  | [] => ""
  | [x] => x
  | x :: rest => x +:+ sep +:+ join sep rest
  end.

(** [str(t)] for a tuple of integers: the items between parentheses,
    separated by a comma and a space; a tuple of one item keeps a
    trailing comma. *)
Definition tuple_str (items : list Z) : string :=
  match items with
  | [x] => "(" +:+ int_str x +:+ ",)"
  | _ => "(" +:+ join ", " (map int_str items) +:+ ")"
  end.

Definition str (v : value) : string :=
  match v with
  | VInt z => int_str z
  | VTuple items => tuple_str items
  end.

(** [sum(vargs)]: start from 0 and add the items from left to right. *)
Definition sum (vargs : list Z) : Z :=
  fold_left Z.add vargs 0.

(** [fmt % args] for the conversions the script uses: [%s], [%d] and
    the escape [%%].  [None] stands for the exception Python raises
    (too few or too many arguments, [%d] applied to a tuple, an
    incomplete or unsupported conversion). *)
Fixpoint mod_format (fmt : string) (args : list value) : option string :=
  match fmt with
  | EmptyString =>
      match args with
      | [] => Some ""
      | _ :: _ => None
      end
  | String "%" EmptyString => None
  | String "%" (String c rest) =>
      if Ascii.eqb c "%" then
        option_map (String "%") (mod_format rest args)
      else if Ascii.eqb c "s" then
        match args with
        | v :: args' => option_map (String.append (str v)) (mod_format rest args')
        | [] => None
        end
      else if Ascii.eqb c "d" then
        match args with
        | VInt z :: args' => option_map (String.append (int_str z)) (mod_format rest args')
        | _ => None
        end
      else None
  | String c rest => option_map (String c) (mod_format rest args)
  end.

(** *** [int(text)] *)

(** Whitespace as [int] skips it around a literal. *)
Definition is_space (c : ascii) : bool :=
  let n := nat_of_ascii c in
  ((9 <=? n)%nat && (n <=? 13)%nat) || ((28 <=? n)%nat && (n <=? 32)%nat).

Definition digit_of (c : ascii) : option Z :=
  let n := nat_of_ascii c in
  if ((48 <=? n)%nat && (n <=? 57)%nat)%bool then Some (Z.of_nat n - 48) else None.

Fixpoint lstrip (s : string) : string :=
  match s with
  | String c s' => if is_space c then lstrip s' else s
  | EmptyString => EmptyString
  end.

(** Where the scanner stands inside a literal: a digit is required (at
    the start and after an underscore), a digit was just read, or the
    literal is over and only whitespace may follow. *)
Inductive int_state : Type := NeedDigit | AfterDigit | Trailing.

Fixpoint int_scan (st : int_state) (acc : Z) (s : string) : option Z :=
  match s with
  | EmptyString =>
      match st with
      | NeedDigit => None
      | AfterDigit | Trailing => Some acc
      end
  | String c s' =>
      match st with
      | NeedDigit =>
          match digit_of c with
          | Some d => int_scan AfterDigit (10 * acc + d) s'
          | None => None
          end
      | AfterDigit =>
          match digit_of c with
          | Some d => int_scan AfterDigit (10 * acc + d) s'
          | None =>
              if Ascii.eqb c "_" then int_scan NeedDigit acc s'
              else if is_space c then int_scan Trailing acc s'
              else None
          end
      | Trailing => if is_space c then int_scan Trailing acc s' else None
      end
  end.

(** [int(text)] in base 10: surrounding whitespace, an optional sign,
    then digits that single underscores may separate.  [None] is
    [ValueError]. *)
Definition int (text : string) : option Z :=
  match lstrip text with
  | String "-" s' => option_map Z.opp (int_scan NeedDigit 0 s')
  | String "+" s' => int_scan NeedDigit 0 s'
  | s' => int_scan NeedDigit 0 s'
  end.

(** *** [str.splitlines()] *)

Definition is_linebreak (c : ascii) : bool :=
  let n := nat_of_ascii c in
  ((10 <=? n)%nat && (n <=? 13)%nat) || ((28 <=? n)%nat && (n <=? 30)%nat)
  || (n =? 133)%nat.

Definition LF : ascii := ascii_of_nat 10.
Definition CR : ascii := ascii_of_nat 13.

(** [cur] is the line being read ([None] between lines) and [after_cr]
    tells that the previous character was a carriage return, so that a
    line feed right after it belongs to the same line boundary. *)
Fixpoint splitlines_go (cur : option string) (after_cr : bool) (s : string)
  : list string :=
  match s with
  | EmptyString =>
      match cur with
      | Some line => [line]
      | None => []
      end
  | String c s' =>
      if (after_cr && Ascii.eqb c LF)%bool then splitlines_go cur false s'
      else if is_linebreak c then
        default "" cur :: splitlines_go None (Ascii.eqb c CR) s'
      else splitlines_go (Some (default "" cur +:+ String c "")) false s'
  end.

Definition splitlines (s : string) : list string :=
  splitlines_go None false s.

(** A text that [splitlines] keeps in one piece. *)
Fixpoint no_linebreak (s : string) : bool :=
  match s with
  | EmptyString => true
  | String c s' => negb (is_linebreak c) && no_linebreak s'
  end.




End Py.

(** ** The part of CPython's [logging] package that the script drives *)

Module Logging.
Import Py.

Definition NOTSET : Z := 0.
Definition DEBUG : Z := 10.
Definition WARNING : Z := 30.

Definition stderr : nat := 2%nat.

(** A [LogRecord]: the level, the message and its arguments.  [args] is
    [None] once a [QueueHandler] has prepared the record. *)
Record LogRecord : Type := mkRecord {
  levelno : Z;
  msg : string;
  args : option (list value)
}.

(** [LogRecord.getMessage]: [msg % args] when there are arguments. *)
Definition getMessage (r : LogRecord) : option string :=
  match args r with
  | Some (a :: rest) => mod_format (msg r) (a :: rest)
  | Some [] | None => Some (msg r)
  end.

(** Where a handler delivers: a text stream ([StreamHandler]) or a
    queue of records ([QueueHandler]). *)
Inductive Sink : Type :=
| Stream (stream : nat)
| Queue (queue : nat).

Record Handler : Type := mkHandler {
  hlevel : Z;
  sink : Sink
}.

Definition StreamHandler (stream : nat) : Handler := mkHandler NOTSET (Stream stream).
Definition QueueHandler (queue : nat) : Handler := mkHandler NOTSET (Queue queue).

#[global] Instance Sink_eq_dec : EqDecision Sink.
Proof. solve_decision. Defined.

#[global] Instance Handler_eq_dec : EqDecision Handler.
Proof. solve_decision. Defined.

Record Logger : Type := mkLogger {
  level : Z;
  handlers : list Handler;
  propagate : bool;
  disabled : bool
}.

(** The state of the package in one process: the manager's [disable]
    threshold, the root logger, the logger of the module
    ([logging.getLogger(__name__)], a child of the root), the contents of
    the streams and of the queues, and the records whose delivery failed
    ([Handler.handleError] ran on them). *)
Record State : Type := mkState {
  disable : Z;
  root : Logger;
  logger : Logger;
  streams : gmap nat string;
  queues : gmap nat (list LogRecord);
  errors : list LogRecord
}.

(** A fresh interpreter: the root logger warns, nothing is attached. *)
Definition initial : State :=
  mkState 0 (mkLogger WARNING [] true false) (mkLogger NOTSET [] true false) ∅ ∅ [].

Definition read (stream : nat) (st : State) : string :=
  default "" (streams st !! stream).

Definition write (stream : nat) (text : string) (st : State) : State :=
  mkState (disable st) (root st) (logger st)
          (<[stream := read stream st +:+ text]> (streams st)) (queues st) (errors st).

Definition pending (queue : nat) (st : State) : list LogRecord :=
  default [] (queues st !! queue).

Definition put_nowait (queue : nat) (r : LogRecord) (st : State) : State :=
  mkState (disable st) (root st) (logger st) (streams st)
          (<[queue := (pending queue st ++ [r])%list]> (queues st)) (errors st).

(** [SimpleQueue.get_nowait]: the oldest record, [None] for
    [queue.Empty]. *)
Definition get_nowait (queue : nat) (st : State) : option (LogRecord * State) :=
  match pending queue st with
  | [] => None
  | r :: rest =>
      Some (r, mkState (disable st) (root st) (logger st) (streams st)
                       (<[queue := rest]> (queues st)) (errors st))
  end.

Definition handleError (r : LogRecord) (st : State) : State :=
  mkState (disable st) (root st) (logger st) (streams st) (queues st) (errors st ++ [r])%list.

(** Every formatter in the two files is ['%(message)s'] (the default one
    and the one [basicConfig] is given): the formatted record is its
    message. *)
Definition format (r : LogRecord) : option string := getMessage r.

Definition terminator : string := String LF "".

(** [Handler.emit].  A stream receives the text and the terminator; a
    queue receives the prepared record, whose message is the formatted
    text and whose arguments are dropped.  A failure while formatting
    goes to [handleError] and does not propagate. *)
Definition emit (h : Handler) (r : LogRecord) (st : State) : State :=
  match format r with
  | None => handleError r st
  | Some text =>
      match sink h with
      | Stream s => write s (text +:+ terminator) st
      | Queue q => put_nowait q (mkRecord (levelno r) text None) st
      end
  end.

Definition handle (r : LogRecord) (st : State) (h : Handler) : State :=
  if hlevel h <=? levelno r then emit h r st else st.

(** The handler of last resort writes warnings and above to [stderr]. *)
Definition lastResort : Handler := mkHandler WARNING (Stream stderr).

(** [Logger.callHandlers] on the module's logger: its own handlers, then
    the root's when the logger propagates; the handler of last resort
    when no handler was found at all. *)
Definition found (st : State) : list Handler :=
  (handlers (logger st) ++ (if propagate (logger st) then handlers (root st) else []))%list.

Definition callHandlers (r : LogRecord) (st : State) : State :=
  match found st with
  | [] => handle r st lastResort
  | _ :: _ => fold_left (handle r) (found st) st
  end.

Definition getEffectiveLevel (st : State) : Z :=
  if level (logger st) =? NOTSET then level (root st) else level (logger st).

Definition isEnabledFor (lvl : Z) (st : State) : bool :=
  if disabled (logger st) then false
  else if lvl <=? disable st then false
  else getEffectiveLevel st <=? lvl.

(** [logger.log(lvl, msg, *args)], which [debug] and [info] reduce to. *)
Definition log (lvl : Z) (msg : string) (args : list value) (st : State) : State :=
  if isEnabledFor lvl st then callHandlers (mkRecord lvl msg (Some args)) st else st.

Definition with_logger (l : Logger) (st : State) : State :=
  mkState (disable st) (root st) l (streams st) (queues st) (errors st).

(** [logger.setLevel(lvl)] on the module's logger. *)
Definition setLevel (lvl : Z) (st : State) : State :=
  with_logger (mkLogger lvl (handlers (logger st)) (propagate (logger st))
                        (disabled (logger st))) st.

(** [logger.addHandler(h)]: appended unless already attached.  Python
    compares handlers by identity; the model compares level and sink,
    which is the same for handlers built on sinks of their own, as the
    fixtures do. *)
Definition addHandler (h : Handler) (st : State) : State :=
  if bool_decide (h ∈ handlers (logger st)) then st
  else with_logger (mkLogger (level (logger st)) (handlers (logger st) ++ [h])%list
                             (propagate (logger st)) (disabled (logger st))) st.

Fixpoint remove (h : Handler) (hs : list Handler) : list Handler :=
  match hs with
  | [] => []
  | h' :: rest => if bool_decide (h' = h) then rest else h' :: remove h rest
  end.

Definition removeHandler (h : Handler) (st : State) : State :=
  with_logger (mkLogger (level (logger st)) (remove h (handlers (logger st)))
                        (propagate (logger st)) (disabled (logger st))) st.

(** [logging.basicConfig(format='%(message)s', level=lvl)]: when the root
    logger has no handler, it gets a [StreamHandler] on [stderr] (no
    stream and no file name is given) and the level; otherwise nothing
    changes. *)
Definition basicConfig (lvl : Z) (st : State) : State :=
  match handlers (root st) with
  | [] =>
      mkState (disable st)
              (mkLogger lvl [StreamHandler stderr] (propagate (root st)) (disabled (root st)))
              (logger st) (streams st) (queues st) (errors st)
  | _ :: _ => st
  end.

(** The configuration, as opposed to what the sinks hold. *)
Definition config (st : State) : Z * Logger * Logger :=
  (disable st, root st, logger st).

(** A sink that no attached handler delivers to and that holds nothing
    yet: a stream or a queue the caller has just created. *)
Definition unused (k : Sink) (st : State) : bool :=
  forallb (fun h => negb (bool_decide (sink h = k)))
          (handlers (logger st) ++ handlers (root st))%list
  && match k with
     | Stream s => bool_decide (streams st !! s = None)
     | Queue q => bool_decide (queues st !! q = None)
     end.

(** A handler with the default level stands last among the handlers of
    the module's logger, and it is the only one on its sink. *)
Definition attached (h : Handler) (st : State) : Prop :=
  hlevel h = NOTSET /\
  exists hs, handlers (logger st) = (hs ++ [h])%list /\
             Forall (fun h' => sink h' <> sink h) hs /\
             Forall (fun h' => sink h' <> sink h) (handlers (root st)).

End Logging.

(** ** [src/add.py] *)

Module Add.
Import Py Logging.

(** Programs over the logger: return, raise, hand a request to the
    module's logger, configure the package. *)
Inductive Prog (A : Type) : Type :=
| Return (a : A)
| Raise (e : exn)
| Log (lvl : Z) (msg : string) (args : list value) (k : Prog A)
| BasicConfig (lvl : Z) (k : Prog A).

Arguments Return {A} a.
Arguments Raise {A} e.
Arguments Log {A} lvl msg args k.
Arguments BasicConfig {A} lvl k.

Fixpoint bind {A B : Type} (p : Prog A) (f : A -> Prog B) : Prog B :=
  match p with
  | Return a => f a
  | Raise e => Raise e
  | Log lvl msg args k => Log lvl msg args (bind k f)
  | BasicConfig lvl k => BasicConfig lvl (bind k f)
  end.

Notation "x <- p ;; q" := (bind p (fun x => q))
  (at level 100, p at next level, right associativity).
Notation "p ;; q" := (bind p (fun _ => q))
  (at level 100, right associativity).

Definition debug (msg : string) (args : list value) : Prog unit :=
  Log DEBUG msg args (Return tt).


(** The function [add] of lines 8 to 12; [vargs] is the tuple of its
    arguments. *)
Definition add (vargs : list Z) : Prog Z :=
  debug "Calculating the sum of %s" [VTuple vargs] ;;
  let res := sum vargs in
  debug "Result is %d" [VInt res] ;;
  Return res.



(** A request as the program hands it to its logger. *)
Record Request : Type := mkRequest {
  req_level : Z;
  req_msg : string;
  req_args : list value
}.

(** The text a request renders to. *)
Definition rendered (q : Request) : option string :=
  getMessage (mkRecord (req_level q) (req_msg q) (Some (req_args q))).

(** The requests of a program, in order. *)
Fixpoint requests {A : Type} (p : Prog A) : list Request :=
  match p with
  | Return _ | Raise _ => []
  | Log lvl msg args k => mkRequest lvl msg args :: requests k
  | BasicConfig _ k => requests k
  end.

(** Running a program on a state of the logging package: the value it
    returns or the exception it raises, and the state it leaves. *)
Fixpoint exec {A : Type} (p : Prog A) (st : State) : (exn + A) * State :=
  match p with
  | Return a => (inr a, st)
  | Raise e => (inl e, st)
  | Log lvl msg args k => exec k (log lvl msg args st)
  | BasicConfig lvl k => exec k (basicConfig lvl st)
  end.



End Add.

(** ** The fixtures of [src/test.py] *)

Module AddTest.
Import Py Logging Add.

(** [test_add_check_log_file] up to its assertions: the value [add]
    returns and the lines read back from the stream [log]. *)
Definition check_log_file (params : list Z) (log : nat) (st : State)
  : (exn + Z) * list string :=
  let st := setLevel DEBUG st in
  let handler := StreamHandler log in
  let st := addHandler handler st in
  let '(r, st) := exec (add params) st in
  let st := removeHandler handler st in
  let logdata := read log st in
  (r, splitlines logdata).

(** [q.get_nowait().getMessage()]; [None] when the queue is empty. *)
Definition next_message (q : nat) (st : State) : option (string * State) :=
  match get_nowait q st with
  | Some (r, st') =>
      match getMessage r with
      | Some text => Some (text, st')
      | None => None
      end
  | None => None
  end.

(** Two messages taken from the queue, one after the other. *)
Definition first_two_messages (q : nat) (st : State) : option (string * string) :=
  match next_message q st with
  | Some (first, st') =>
      match next_message q st' with
      | Some (second, _) => Some (first, second)
      | None => None
      end
  | None => None
  end.

(** [test_add_check_log_queue] up to its assertions: the value [add]
    returns and the two messages taken from the queue [q]. *)
Definition check_log_queue (params : list Z) (q : nat) (st : State)
  : (exn + Z) * option (string * string) :=
  let st := setLevel DEBUG st in
  let handler := QueueHandler q in
  let st := addHandler handler st in
  let '(r, st) := exec (add params) st in
  let st := removeHandler handler st in
  (r, first_two_messages q st).

(** [lines[0]] and [lines[1]]; [None] for [IndexError]. *)
Definition first_two (lines : list string) : option (string * string) :=
  match lines with
  | first :: second :: _ => Some (first, second)
  | _ => None
  end.


(** The logging state once the [finally] block of a fixture has run:
    the level set, the handler attached, [add] called, the handler
    removed. *)
Definition after_fixture (handler : Handler) (params : list Z) (st : State) : State :=
  let st := setLevel DEBUG st in
  let st := addHandler handler st in
  let '(_, st) := exec (add params) st in
  removeHandler handler st.

(** [test_add_check_log_file] with its assertions, for the parameters
    and the expected sum the test binds to [params] and [expected_sum]:
    [true] when the three [assertEqual] hold. *)
Definition test_add_check_log_file (params : list Z) (expected_sum : Z)
           (log : nat) (st : State) : bool :=
  let '(r, lines) := check_log_file params log st in
  match r, first_two lines with
  | inr res, Some (line0, line1) =>
      (res =? expected_sum)
      && String.eqb line0 ("Calculating the sum of " +:+ str (VTuple params))
      && String.eqb line1 ("Result is " +:+ int_str expected_sum)
  | _, _ => false
  end.

(** [test_add_check_log_queue] with its assertions. *)
Definition test_add_check_log_queue (params : list Z) (expected_sum : Z)
           (q : nat) (st : State) : bool :=
  let '(r, messages) := check_log_queue params q st in
  match r, messages with
  | inr res, Some (first, second) =>
      (res =? expected_sum)
      && String.eqb first ("Calculating the sum of " +:+ str (VTuple params))
      && String.eqb second ("Result is " +:+ int_str expected_sum)
  | _, _ => false
  end.

End AddTest.

(** ** The specification's words *)

Module Spec.
Import Py.

(** The arithmetic sum of a finite sequence of integers. *)
Definition arith_sum (xs : list Z) : Z := fold_right Z.add 0 xs.

(** The text of the first record: the inputs, rendered as a tuple. *)
Definition inputs_text (xs : list Z) : string :=
  "Calculating the sum of " +:+ tuple_str xs.

(** The text of the second record: the sum, in decimal. *)
Definition result_text (z : Z) : string :=
  "Result is " +:+ int_str z.

End Spec.

(** * Properties *)

Import Py Logging Add AddTest Spec.

Example int_str_neg : Py.int_str (-120) = "-120".
Proof. reflexivity. Qed.

Example tuple_str_empty : Py.tuple_str [] = "()".
Proof. reflexivity. Qed.

Example tuple_str_pair : Py.tuple_str [1; -2] = "(1, -2)".
Proof. reflexivity. Qed.

Example int_examples :
  map Py.int [" 12 "; "+5"; "-0"; "1_000"; "007"; ""; "+"; "1__0"; "_1"; "1_"; "x"; "1.5"; "- 1"]
  = [Some 12; Some 5; Some 0; Some 1000; Some 7; None; None; None; None; None; None; None; None].
Proof. reflexivity. Qed.

Example splitlines_examples :
  map Py.splitlines ["" ; "abc" ; String "a" (String Py.LF (String Py.LF "b"));
                     String "a" (String Py.CR (String Py.LF "b"))]
  = [[]; ["abc"]; ["a"; ""; "b"]; ["a"; "b"]].
Proof. reflexivity. Qed.

(** ** Strings *)

Lemma append_cons (x : ascii) (a b : string) :
  String x a +:+ b = String x (a +:+ b).
Proof. reflexivity. Qed.

Lemma append_assoc (a b c : string) : (a +:+ b) +:+ c = a +:+ (b +:+ c).
Proof.
  induction a as [|x a IH]; [reflexivity|].
  rewrite !append_cons. now rewrite IH.
Qed.

Lemma append_nil_r (a : string) : a +:+ "" = a.
Proof.
  induction a as [|x a IH]; [reflexivity|].
  rewrite append_cons. now rewrite IH.
Qed.

(** ** The sum *)

Lemma fold_left_add_shift (xs : list Z) (a : Z) :
  fold_left Z.add xs a = a + fold_left Z.add xs 0.
Proof.
  revert a; induction xs as [|x xs IH]; intros a; simpl.
  - lia.
  - rewrite (IH (a + x)), (IH (0 + x)). lia.
Qed.

Lemma sum_arith_sum (xs : list Z) : sum xs = arith_sum xs.
Proof.
  unfold sum. induction xs as [|x xs IH]; simpl; [reflexivity|].
  rewrite fold_left_add_shift, IH. lia.
Qed.

Lemma arith_sum_permutation (xs ys : list Z) :
  Permutation xs ys -> arith_sum xs = arith_sum ys.
Proof.
  induction 1 as [|x l l' _ IH|x y l|l l' l'' _ IH1 _ IH2]; simpl.
  - reflexivity.
  - now rewrite IH.
  - lia.
  - now rewrite IH1.
Qed.

(** ** One call of [add] *)


Lemma format_inputs (xs : list Z) :
  mod_format "Calculating the sum of %s" [VTuple xs] = Some (inputs_text xs).
Proof. unfold inputs_text. simpl. now rewrite append_nil_r. Qed.

Lemma format_result (z : Z) :
  mod_format "Result is %d" [VInt z] = Some (result_text z).
Proof. unfold result_text. simpl. now rewrite append_nil_r. Qed.


(** Running a call: the sum comes back and the state has gone through
    the two requests. *)
Lemma exec_add (xs : list Z) (st : State) :
  exec (add xs) st =
  (inr (sum xs),
   log DEBUG "Result is %d" [VInt (sum xs)]
       (log DEBUG "Calculating the sum of %s" [VTuple xs] st)).
Proof. reflexivity. Qed.

(** ** Delivery leaves the configuration alone *)

Lemma config_emit (h : Handler) (r : LogRecord) (st : State) :
  config (emit h r st) = config st.
Proof.
  unfold emit. destruct (format r); [|reflexivity].
  destruct (sink h); reflexivity.
Qed.

Lemma config_handle (r : LogRecord) (st : State) (h : Handler) :
  config (handle r st h) = config st.
Proof. unfold handle. destruct (hlevel h <=? levelno r); [apply config_emit | reflexivity]. Qed.

Lemma config_fold_handle (r : LogRecord) (hs : list Handler) (st : State) :
  config (fold_left (handle r) hs st) = config st.
Proof.
  revert st; induction hs as [|h hs IH]; intros st; simpl; [reflexivity|].
  now rewrite IH, config_handle.
Qed.

Lemma config_callHandlers (r : LogRecord) (st : State) :
  config (callHandlers r st) = config st.
Proof.
  unfold callHandlers. destruct (found st).
  - apply config_handle.
  - apply config_fold_handle.
Qed.

Lemma config_log (lvl : Z) (m : string) (a : list value) (st : State) :
  config (log lvl m a st) = config st.
Proof. unfold log. destruct (isEnabledFor lvl st); [apply config_callHandlers | reflexivity]. Qed.

Lemma config_fields (st st' : State) :
  config st = config st' ->
  disable st = disable st' /\ root st = root st' /\ logger st = logger st'.
Proof. unfold config. intros H. now inversion H. Qed.

Lemma isEnabledFor_config (lvl : Z) (st st' : State) :
  config st = config st' -> isEnabledFor lvl st = isEnabledFor lvl st'.
Proof.
  intros H. apply config_fields in H as (Hd & Hr & Hl).
  unfold isEnabledFor, getEffectiveLevel. now rewrite Hd, Hr, Hl.
Qed.

Lemma found_config (st st' : State) :
  config st = config st' -> found st = found st'.
Proof.
  intros H. apply config_fields in H as (_ & Hr & Hl).
  unfold found. now rewrite Hr, Hl.
Qed.

(** ** What a sink holds after a delivery *)

Lemma read_write (s : nat) (text : string) (st : State) :
  read s (write s text st) = read s st +:+ text.
Proof. unfold read, write; simpl. now rewrite lookup_insert_eq. Qed.

Lemma read_write_ne (s s' : nat) (text : string) (st : State) :
  s <> s' -> read s (write s' text st) = read s st.
Proof. intros H. unfold read, write; simpl. now rewrite lookup_insert_ne. Qed.

Lemma pending_put_nowait (q : nat) (r : LogRecord) (st : State) :
  pending q (put_nowait q r st) = (pending q st ++ [r])%list.
Proof. unfold pending, put_nowait; simpl. now rewrite lookup_insert_eq. Qed.

Lemma pending_put_nowait_ne (q q' : nat) (r : LogRecord) (st : State) :
  q <> q' -> pending q (put_nowait q' r st) = pending q st.
Proof. intros H. unfold pending, put_nowait; simpl. now rewrite lookup_insert_ne. Qed.

Lemma read_handle_other (s : nat) (r : LogRecord) (st : State) (h : Handler) :
  sink h <> Stream s -> read s (handle r st h) = read s st.
Proof.
  intros H. unfold handle, emit.
  destruct (hlevel h <=? levelno r); [|reflexivity].
  destruct (format r); [|reflexivity].
  destruct (sink h) as [s'|q']; [|reflexivity].
  apply read_write_ne. congruence.
Qed.

Lemma pending_handle_other (q : nat) (r : LogRecord) (st : State) (h : Handler) :
  sink h <> Queue q -> pending q (handle r st h) = pending q st.
Proof.
  intros H. unfold handle, emit.
  destruct (hlevel h <=? levelno r); [|reflexivity].
  destruct (format r); [|reflexivity].
  destruct (sink h) as [s'|q']; [reflexivity|].
  apply pending_put_nowait_ne. congruence.
Qed.

Lemma read_fold_other (s : nat) (r : LogRecord) (hs : list Handler) (st : State) :
  Forall (fun h => sink h <> Stream s) hs ->
  read s (fold_left (handle r) hs st) = read s st.
Proof.
  intros H; revert st; induction H as [|h hs Hh _ IH]; intros st; simpl;
    [reflexivity|].
  now rewrite IH, read_handle_other.
Qed.

Lemma pending_fold_other (q : nat) (r : LogRecord) (hs : list Handler) (st : State) :
  Forall (fun h => sink h <> Queue q) hs ->
  pending q (fold_left (handle r) hs st) = pending q st.
Proof.
  intros H; revert st; induction H as [|h hs Hh _ IH]; intros st; simpl;
    [reflexivity|].
  now rewrite IH, pending_handle_other.
Qed.

Lemma attached_config (h : Handler) (st st' : State) :
  config st = config st' -> attached h st -> attached h st'.
Proof.
  intros H (Hl & hs & Hhs & F1 & F2).
  apply config_fields in H as (_ & Hr & Hlg).
  split; [exact Hl|]. exists hs. now rewrite <- Hr, <- Hlg.
Qed.

Lemma found_attached (h : Handler) (st : State) :
  attached h st ->
  exists hs rest, found st = (hs ++ h :: rest)%list /\
                  Forall (fun h' => sink h' <> sink h) hs /\
                  Forall (fun h' => sink h' <> sink h) rest.
Proof.
  intros (_ & hs & Hhs & F1 & F2). unfold found. rewrite Hhs.
  exists hs, (if propagate (logger st) then handlers (root st) else []).
  split; [now rewrite <- app_assoc|]. split; [exact F1|].
  destruct (propagate (logger st)); [exact F2 | constructor].
Qed.

Lemma callHandlers_attached (h : Handler) (r : LogRecord) (st : State) :
  attached h st ->
  exists hs rest, callHandlers r st
                  = fold_left (handle r) rest (handle r (fold_left (handle r) hs st) h) /\
                  Forall (fun h' => sink h' <> sink h) hs /\
                  Forall (fun h' => sink h' <> sink h) rest.
Proof.
  intros H. destruct (found_attached h st H) as (hs & rest & Hf & F1 & F2).
  exists hs, rest. split; [|now split].
  unfold callHandlers. rewrite Hf.
  destruct hs; simpl; [reflexivity|].
  now rewrite fold_left_app.
Qed.

Lemma log_disabled (lvl : Z) (m : string) (a : list value) (st : State) :
  isEnabledFor lvl st = false -> log lvl m a st = st.
Proof. intros H. unfold log. now rewrite H. Qed.

Lemma handle_attached (h : Handler) (lvl : Z) (m : string) (a : list value)
      (text : string) (st : State) :
  hlevel h = NOTSET -> 0 <= lvl ->
  getMessage (mkRecord lvl m (Some a)) = Some text ->
  handle (mkRecord lvl m (Some a)) st h =
  match sink h with
  | Stream s => write s (text +:+ terminator) st
  | Queue q => put_nowait q (mkRecord lvl text None) st
  end.
Proof.
  intros Hl Hlvl Hm. unfold handle, emit, format. rewrite Hl, Hm.
  cbn [levelno]. unfold NOTSET.
  destruct (Z.leb_spec 0 lvl); [reflexivity | lia].
Qed.

Lemma read_log_attached (s : nat) (h : Handler) (lvl : Z) (m : string)
      (a : list value) (text : string) (st : State) :
  attached h st -> sink h = Stream s -> isEnabledFor lvl st = true -> 0 <= lvl ->
  getMessage (mkRecord lvl m (Some a)) = Some text ->
  read s (log lvl m a st) = read s st +:+ (text +:+ terminator).
Proof.
  intros Ha Hs He Hlvl Hm. unfold log. rewrite He.
  destruct (callHandlers_attached h (mkRecord lvl m (Some a)) st Ha)
    as (hs & rest & -> & F1 & F2).
  rewrite Hs in F1, F2.
  rewrite read_fold_other by exact F2.
  rewrite (handle_attached h lvl m a text) by (tauto || assumption || apply Ha).
  rewrite Hs, read_write. now rewrite read_fold_other by exact F1.
Qed.

Lemma pending_log_attached (q : nat) (h : Handler) (lvl : Z) (m : string)
      (a : list value) (text : string) (st : State) :
  attached h st -> sink h = Queue q -> isEnabledFor lvl st = true -> 0 <= lvl ->
  getMessage (mkRecord lvl m (Some a)) = Some text ->
  pending q (log lvl m a st) = (pending q st ++ [mkRecord lvl text None])%list.
Proof.
  intros Ha Hs He Hlvl Hm. unfold log. rewrite He.
  destruct (callHandlers_attached h (mkRecord lvl m (Some a)) st Ha)
    as (hs & rest & -> & F1 & F2).
  rewrite Hs in F1, F2.
  rewrite pending_fold_other by exact F2.
  rewrite (handle_attached h lvl m a text) by (tauto || assumption || apply Ha).
  rewrite Hs, pending_put_nowait. now rewrite pending_fold_other by exact F1.
Qed.

Lemma getMessage_inputs (xs : list Z) :
  getMessage (mkRecord DEBUG "Calculating the sum of %s" (Some [VTuple xs]))
  = Some (inputs_text xs).
Proof. exact (format_inputs xs). Qed.

Lemma getMessage_result (z : Z) :
  getMessage (mkRecord DEBUG "Result is %d" (Some [VInt z])) = Some (result_text z).
Proof. exact (format_result z). Qed.

(** One call of [add] while the logger is enabled for [DEBUG] and a
    handler is attached: its sink receives the two texts, in order. *)
Lemma read_add_attached (s : nat) (h : Handler) (xs : list Z) (st : State) :
  attached h st -> sink h = Stream s -> isEnabledFor DEBUG st = true ->
  read s (snd (exec (add xs) st)) =
  (read s st +:+ (inputs_text xs +:+ terminator))
  +:+ (result_text (sum xs) +:+ terminator).
Proof.
  intros Ha Hs He. rewrite exec_add. cbn [snd].
  set (st1 := log DEBUG "Calculating the sum of %s" [VTuple xs] st).
  assert (Hc : config st = config st1) by (symmetry; apply config_log).
  rewrite (read_log_attached s h DEBUG _ _ (result_text (sum xs)) st1).
  - unfold st1.
    now rewrite (read_log_attached s h DEBUG _ _ (inputs_text xs) st)
      by (assumption || (unfold DEBUG; lia) || apply getMessage_inputs).
  - now apply (attached_config h st).
  - exact Hs.
  - now rewrite <- (isEnabledFor_config DEBUG st st1).
  - unfold DEBUG; lia.
  - apply getMessage_result.
Qed.

Lemma pending_add_attached (q : nat) (h : Handler) (xs : list Z) (st : State) :
  attached h st -> sink h = Queue q -> isEnabledFor DEBUG st = true ->
  pending q (snd (exec (add xs) st)) =
  ((pending q st ++ [mkRecord DEBUG (inputs_text xs) None])
     ++ [mkRecord DEBUG (result_text (sum xs)) None])%list.
Proof.
  intros Ha Hs He. rewrite exec_add. cbn [snd].
  set (st1 := log DEBUG "Calculating the sum of %s" [VTuple xs] st).
  assert (Hc : config st = config st1) by (symmetry; apply config_log).
  rewrite (pending_log_attached q h DEBUG _ _ (result_text (sum xs)) st1).
  - unfold st1.
    now rewrite (pending_log_attached q h DEBUG _ _ (inputs_text xs) st)
      by (assumption || (unfold DEBUG; lia) || apply getMessage_inputs).
  - now apply (attached_config h st).
  - exact Hs.
  - now rewrite <- (isEnabledFor_config DEBUG st st1).
  - unfold DEBUG; lia.
  - apply getMessage_result.
Qed.

Lemma exec_add_disabled (xs : list Z) (st : State) :
  isEnabledFor DEBUG st = false -> exec (add xs) st = (inr (sum xs), st).
Proof.
  intros He. rewrite exec_add.
  rewrite (log_disabled DEBUG _ _ st He). now rewrite (log_disabled DEBUG _ _ st He).
Qed.

(** ** Attaching a handler on a sink of its own *)

Lemma unused_handlers (k : Sink) (st : State) :
  unused k st = true ->
  Forall (fun h => sink h <> k) (handlers (logger st)) /\
  Forall (fun h => sink h <> k) (handlers (root st)).
Proof.
  unfold unused. intros H. apply andb_prop in H as [H _].
  rewrite forallb_app in H. apply andb_prop in H as [H1 H2].
  split; apply Forall_forall; intros h Hin.
  - rewrite forallb_forall in H1. specialize (H1 h).
    rewrite <- list_elem_of_In in H1. specialize (H1 Hin).
    apply negb_true_iff, bool_decide_eq_false in H1. exact H1.
  - rewrite forallb_forall in H2. specialize (H2 h).
    rewrite <- list_elem_of_In in H2. specialize (H2 Hin).
    apply negb_true_iff, bool_decide_eq_false in H2. exact H2.
Qed.

Lemma unused_stream_empty (s : nat) (st : State) :
  unused (Stream s) st = true -> read s st = "".
Proof.
  unfold unused. intros H. apply andb_prop in H as [_ H].
  apply bool_decide_eq_true in H. unfold read. now rewrite H.
Qed.

Lemma unused_queue_empty (q : nat) (st : State) :
  unused (Queue q) st = true -> pending q st = [].
Proof.
  unfold unused. intros H. apply andb_prop in H as [_ H].
  apply bool_decide_eq_true in H. unfold pending. now rewrite H.
Qed.

Lemma unused_setLevel (k : Sink) (lvl : Z) (st : State) :
  unused k (setLevel lvl st) = unused k st.
Proof. reflexivity. Qed.

Lemma addHandler_new (h : Handler) (st : State) :
  Forall (fun h' => sink h' <> sink h) (handlers (logger st)) ->
  addHandler h st =
  with_logger (mkLogger (level (logger st)) (handlers (logger st) ++ [h])
                        (propagate (logger st)) (disabled (logger st))) st.
Proof.
  intros F. unfold addHandler.
  destruct (bool_decide (h ∈ handlers (logger st))) eqn:E; [|reflexivity].
  apply bool_decide_eq_true in E. rewrite Forall_forall in F.
  now destruct (F h E).
Qed.

Lemma attached_addHandler (h : Handler) (st : State) :
  hlevel h = NOTSET -> unused (sink h) st = true -> attached h (addHandler h st).
Proof.
  intros Hl Hu. destruct (unused_handlers _ _ Hu) as [F1 F2].
  rewrite (addHandler_new h st F1). split; [exact Hl|].
  exists (handlers (logger st)). now repeat split.
Qed.

Lemma read_addHandler (s : nat) (h : Handler) (st : State) :
  read s (addHandler h st) = read s st.
Proof. unfold addHandler. now destruct (bool_decide _). Qed.

Lemma pending_addHandler (q : nat) (h : Handler) (st : State) :
  pending q (addHandler h st) = pending q st.
Proof. unfold addHandler. now destruct (bool_decide _). Qed.

Lemma isEnabledFor_addHandler (lvl : Z) (h : Handler) (st : State) :
  isEnabledFor lvl (addHandler h st) = isEnabledFor lvl st.
Proof. unfold addHandler. now destruct (bool_decide _). Qed.


(** ** Texts without a line boundary *)

Lemma no_linebreak_app (a b : string) :
  no_linebreak (a +:+ b) = no_linebreak a && no_linebreak b.
Proof.
  induction a as [|x a IH]; [reflexivity|].
  rewrite append_cons. cbn [no_linebreak]. rewrite IH. now rewrite andb_assoc.
Qed.

Lemma no_linebreak_uint (d : Decimal.uint) :
  no_linebreak (NilEmpty.string_of_uint d) = true.
Proof. induction d; cbn; try assumption; reflexivity. Qed.

Lemma no_linebreak_int_str (z : Z) : no_linebreak (int_str z) = true.
Proof.
  unfold int_str. destruct z as [|p|p]; cbn [Z.to_int NilEmpty.string_of_int].
  - reflexivity.
  - apply no_linebreak_uint.
  - cbn [no_linebreak]. now rewrite no_linebreak_uint.
Qed.

Lemma no_linebreak_join (xs : list Z) :
  no_linebreak (join ", " (map int_str xs)) = true.
Proof.
  induction xs as [|x xs IH]; [reflexivity|].
  destruct xs as [|y xs]; [apply no_linebreak_int_str|].
  change (no_linebreak (int_str x +:+ ", " +:+ join ", " (map int_str (y :: xs))) = true).
  rewrite !no_linebreak_app, IH, no_linebreak_int_str. reflexivity.
Qed.

Lemma no_linebreak_tuple_str (xs : list Z) : no_linebreak (tuple_str xs) = true.
Proof.
  destruct xs as [|x [|y xs]]; [reflexivity| |].
  - unfold tuple_str. rewrite !no_linebreak_app, no_linebreak_int_str. reflexivity.
  - unfold tuple_str. rewrite !no_linebreak_app, no_linebreak_join. reflexivity.
Qed.

Lemma no_linebreak_inputs_text (xs : list Z) : no_linebreak (inputs_text xs) = true.
Proof.
  unfold inputs_text. rewrite no_linebreak_app, no_linebreak_tuple_str. reflexivity.
Qed.

Lemma no_linebreak_result_text (z : Z) : no_linebreak (result_text z) = true.
Proof.
  unfold result_text. rewrite no_linebreak_app, no_linebreak_int_str. reflexivity.
Qed.

(** ** Reading the lines back *)

Lemma not_linebreak_not_LF (c : ascii) :
  is_linebreak c = false -> Ascii.eqb c LF = false.
Proof.
  intros H. destruct (Ascii.eqb_spec c LF) as [->|]; [discriminate H | reflexivity].
Qed.

Lemma splitlines_go_line (m : string) :
  forall (c : ascii) (cur : option string) (b : bool) (rest : string),
    no_linebreak (String c m) = true ->
    splitlines_go cur b (String c m +:+ rest)
    = splitlines_go (Some (default "" cur +:+ String c m)) false rest.
Proof.
  induction m as [|c' m IH]; intros c cur b rest H;
    cbn [no_linebreak] in H; apply andb_prop in H as [Hc Hm];
    apply negb_true_iff in Hc;
    rewrite append_cons; cbn [splitlines_go];
    rewrite (not_linebreak_not_LF c Hc), andb_false_r, Hc.
  - reflexivity.
  - rewrite (IH c' _ false rest Hm). cbn [default id].
    now rewrite append_assoc.
Qed.

Lemma splitlines_two (m1 m2 : string) :
  no_linebreak m1 = true -> no_linebreak m2 = true -> m1 <> "" -> m2 <> "" ->
  splitlines (("" +:+ (m1 +:+ terminator)) +:+ (m2 +:+ terminator)) = [m1; m2].
Proof.
  intros H1 H2 N1 N2.
  destruct m1 as [|c1 m1]; [congruence|]. destruct m2 as [|c2 m2]; [congruence|].
  change ("" +:+ (String c1 m1 +:+ terminator)) with (String c1 m1 +:+ terminator).
  rewrite append_assoc. unfold splitlines.
  rewrite (splitlines_go_line m1 c1 None false _ H1).
  unfold terminator at 1. rewrite append_cons. cbn [splitlines_go default].
  change (Ascii.eqb LF LF) with true. change (is_linebreak LF) with true.
  change (Ascii.eqb LF CR) with false. cbn [andb].
  change ("" +:+ (String c2 m2 +:+ terminator)) with (String c2 m2 +:+ terminator).
  rewrite (splitlines_go_line m2 c2 None false _ H2).
  reflexivity.
Qed.

(** ** The fixtures *)

Lemma inputs_text_nonempty (xs : list Z) : inputs_text xs <> "".
Proof. unfold inputs_text. rewrite append_cons. discriminate. Qed.

Lemma result_text_nonempty (z : Z) : result_text z <> "".
Proof. unfold result_text. rewrite append_cons. discriminate. Qed.

Lemma check_log_file_eq (xs : list Z) (log : nat) (st : State) :
  check_log_file xs log st =
  (inr (sum xs),
   splitlines (read log (snd (exec (add xs)
                                   (addHandler (StreamHandler log) (setLevel DEBUG st)))))).
Proof. unfold check_log_file. rewrite exec_add. reflexivity. Qed.

Lemma next_message_prepared (q : nat) (st : State) (lvl : Z) (text : string)
      (rest : list LogRecord) :
  pending q st = mkRecord lvl text None :: rest ->
  exists st', next_message q st = Some (text, st') /\ pending q st' = rest.
Proof.
  intros H. unfold next_message, get_nowait. rewrite H. cbn.
  eexists; split; [reflexivity|].
  unfold pending; simpl. now rewrite lookup_insert_eq.
Qed.

Lemma next_message_empty (q : nat) (st : State) :
  pending q st = [] -> next_message q st = None.
Proof. intros H. unfold next_message, get_nowait. now rewrite H. Qed.

Lemma check_log_queue_eq (xs : list Z) (q : nat) (st : State) :
  check_log_queue xs q st =
  (inr (sum xs),
   first_two_messages q
     (removeHandler (QueueHandler q)
        (snd (exec (add xs) (addHandler (QueueHandler q) (setLevel DEBUG st)))))).
Proof. unfold check_log_queue. rewrite exec_add. reflexivity. Qed.

(** What the stream of [test_add_check_log_file] holds after the call,
    according to whether the logger lets [DEBUG] through. *)
Lemma read_log_file (xs : list Z) (log : nat) (st : State) :
  unused (Stream log) st = true ->
  read log (snd (exec (add xs) (addHandler (StreamHandler log) (setLevel DEBUG st))))
  = if isEnabledFor DEBUG (setLevel DEBUG st)
    then ("" +:+ (inputs_text xs +:+ terminator))
         +:+ (result_text (sum xs) +:+ terminator)
    else "".
Proof.
  intros Hu.
  assert (Hr : read log (addHandler (StreamHandler log) (setLevel DEBUG st)) = "").
  { rewrite read_addHandler. apply unused_stream_empty.
    now rewrite unused_setLevel. }
  destruct (isEnabledFor DEBUG (setLevel DEBUG st)) eqn:He.
  - rewrite (read_add_attached log (StreamHandler log)).
    + now rewrite Hr.
    + apply attached_addHandler; [reflexivity|].
      cbn [sink StreamHandler]. now rewrite unused_setLevel.
    + reflexivity.
    + now rewrite isEnabledFor_addHandler.
  - rewrite exec_add_disabled by now rewrite isEnabledFor_addHandler.
    exact Hr.
Qed.

Lemma pending_log_queue (xs : list Z) (q : nat) (st : State) :
  unused (Queue q) st = true ->
  pending q (snd (exec (add xs) (addHandler (QueueHandler q) st)))
  = if isEnabledFor DEBUG st
    then [mkRecord DEBUG (inputs_text xs) None;
          mkRecord DEBUG (result_text (sum xs)) None]
    else [].
Proof.
  intros Hu.
  assert (Hr : pending q (addHandler (QueueHandler q) st) = []).
  { rewrite pending_addHandler. now apply unused_queue_empty. }
  destruct (isEnabledFor DEBUG st) eqn:He.
  - rewrite (pending_add_attached q (QueueHandler q)).
    + now rewrite Hr.
    + now apply attached_addHandler.
    + reflexivity.
    + now rewrite isEnabledFor_addHandler.
  - rewrite exec_add_disabled by now rewrite isEnabledFor_addHandler.
    exact Hr.
Qed.

Lemma first_two_messages_prepared (q : nat) (st : State) (l1 l2 : Z)
      (t1 t2 : string) :
  pending q st = [mkRecord l1 t1 None; mkRecord l2 t2 None] ->
  first_two_messages q st = Some (t1, t2).
Proof.
  intros H. unfold first_two_messages.
  destruct (next_message_prepared q st l1 t1 _ H) as (st' & -> & H').
  now destruct (next_message_prepared q st' l2 t2 _ H') as (st'' & -> & _).
Qed.

Lemma first_two_messages_empty (q : nat) (st : State) :
  pending q st = [] -> first_two_messages q st = None.
Proof. intros H. unfold first_two_messages. now rewrite next_message_empty. Qed.

Lemma check_log_file_lines (xs : list Z) (log : nat) (st : State) :
  unused (Stream log) st = true ->
  snd (check_log_file xs log st)
  = if isEnabledFor DEBUG (setLevel DEBUG st)
    then [inputs_text xs; result_text (sum xs)]
    else [].
Proof.
  intros Hu. rewrite check_log_file_eq. cbn [snd]. rewrite read_log_file by exact Hu.
  destruct (isEnabledFor DEBUG (setLevel DEBUG st)); [|reflexivity].
  apply splitlines_two.
  - apply no_linebreak_inputs_text.
  - apply no_linebreak_result_text.
  - apply inputs_text_nonempty.
  - apply result_text_nonempty.
Qed.

Lemma check_log_queue_messages (xs : list Z) (q : nat) (st : State) :
  unused (Queue q) st = true ->
  snd (check_log_queue xs q st)
  = if isEnabledFor DEBUG (setLevel DEBUG st)
    then Some (inputs_text xs, result_text (sum xs))
    else None.
Proof.
  intros Hu. rewrite check_log_queue_eq. cbn [snd].
  assert (Hp := pending_log_queue xs q (setLevel DEBUG st)).
  rewrite unused_setLevel in Hp. specialize (Hp Hu).
  destruct (isEnabledFor DEBUG (setLevel DEBUG st)).
  - now apply (first_two_messages_prepared q _ DEBUG DEBUG).
  - now apply first_two_messages_empty.
Qed.


(** A call with no handler in reach leaves the state as it was. *)
Lemma exec_add_no_handler (xs : list Z) (st : State) :
  found st = [] -> exec (add xs) st = (inr (sum xs), st).
Proof.
  intros Hf. rewrite exec_add.
  assert (H : forall m a, log DEBUG m a st = st).
  { intros m a. unfold log. destruct (isEnabledFor DEBUG st); [|reflexivity].
    unfold callHandlers. rewrite Hf. reflexivity. }
  now rewrite !H.
Qed.

(** ** The command line *)






(** * The claims *)

(** C1: for every finite sequence of integers [xs], the empty one
    included, a call of [add] on the elements of [xs] returns the
    arithmetic sum of [xs], whatever the state of the logging package; on
    the empty sequence it returns 0. *)
Theorem C1_add_returns_arithmetic_sum (xs : list Z) (st : State) :
  fst (exec (add xs) st) = inr (arith_sum xs) /\
  fst (exec (add []) st) = inr 0.
Proof.
  split.
  - rewrite exec_add. cbn [fst]. now rewrite sum_arith_sum.
  - reflexivity.
Qed.


(** C3: on the inputs (1, 2, 3), [add] returns 6 and its two records
    render to ["Calculating the sum of (1, 2, 3)"] and ["Result is 6"], in
    this order; both fixtures of the test file read exactly these two
    texts back, from a stream and from a queue. *)
Theorem C3_add_1_2_3 (st : State) (log q : nat) :
  fst (exec (add [1; 2; 3]) st) = inr 6 /\
  map rendered (requests (add [1; 2; 3])) =
    [Some "Calculating the sum of (1, 2, 3)"; Some "Result is 6"] /\
  check_log_file [1; 2; 3] log initial =
    (inr 6, ["Calculating the sum of (1, 2, 3)"; "Result is 6"]) /\
  check_log_queue [1; 2; 3] q initial =
    (inr 6, Some ("Calculating the sum of (1, 2, 3)", "Result is 6")).
Proof.
  split; [reflexivity|]. split; [reflexivity|]. split.
  - assert (Hu : unused (Stream log) initial = true).
    { unfold unused. cbn. apply bool_decide_eq_true, lookup_empty. }
    rewrite (surjective_pairing (check_log_file [1; 2; 3] log initial)).
    rewrite (check_log_file_lines _ _ _ Hu), check_log_file_eq. reflexivity.
  - assert (Hu : unused (Queue q) initial = true).
    { unfold unused. cbn. apply bool_decide_eq_true, lookup_empty. }
    rewrite (surjective_pairing (check_log_queue [1; 2; 3] q initial)).
    rewrite (check_log_queue_messages _ _ _ Hu), check_log_queue_eq. reflexivity.
Qed.



(** C6: on the one-element input (5,), the first record renders the
    input with the trailing comma of a one-element tuple: its text is
    ["Calculating the sum of (5,)"], and not ["Calculating the sum of (5)"]. *)
Theorem C6_single_element_tuple :
  map rendered (requests (add [5])) =
    [Some "Calculating the sum of (5,)"; Some "Result is 5"] /\
  head (map rendered (requests (add [5]))) <> Some (Some "Calculating the sum of (5)").
Proof. split; [reflexivity | discriminate]. Qed.

(** C7: with no handler in reach of the logger, a call of [add] raises
    nothing, returns the sum and leaves the logging state untouched; the
    value is the one returned once a handler is attached. *)
Theorem C7_no_sink (xs : list Z) (st : State) (h : Handler) :
  found st = [] ->
  exec (add xs) st = (inr (arith_sum xs), st) /\
  fst (exec (add xs) (addHandler h st)) = fst (exec (add xs) st).
Proof.
  intros Hf. rewrite (exec_add_no_handler xs st Hf), exec_add.
  now rewrite sum_arith_sum.
Qed.



(** C10: the value [add] returns does not change when its arguments are
    permuted, whatever the logging states of the two calls. *)
Theorem C10_permutation_invariant (xs ys : list Z) (st st' : State) :
  Permutation xs ys ->
  fst (exec (add xs) st) = fst (exec (add ys) st').
Proof.
  intros H. rewrite !exec_add. cbn [fst].
  now rewrite !sum_arith_sum, (arith_sum_permutation xs ys H).
Qed.

(** ** Instances *)




Lemma C7_witness :
  exec (add [1; 2; 3]) initial = (inr (arith_sum [1; 2; 3]), initial) /\
  fst (exec (add [1; 2; 3]) (addHandler (QueueHandler 0%nat) initial))
  = fst (exec (add [1; 2; 3]) initial).
Proof.
  apply (C7_no_sink [1; 2; 3] initial (QueueHandler 0%nat)). reflexivity.
Defined.



Lemma C10_witness :
  fst (exec (add [1; 2; 3]) initial) = fst (exec (add [3; 1; 2]) initial).
Proof.
  apply (C10_permutation_invariant [1; 2; 3] [3; 1; 2] initial initial).
  apply (perm_trans (l' := [1; 3; 2])).
  - apply perm_skip, perm_swap.
  - apply perm_swap.
Defined.

(** * Further properties of the script and of its tests *)

(** ** Decimal texts go through [int] unchanged *)








(** ** Conversion of the arguments *)




(** ** Sequencing *)

Lemma exec_bind {A B : Type} (p : Prog A) (f : A -> Prog B) (st : State) :
  exec (bind p f) st =
  match exec p st with
  | (inr a, st') => exec (f a) st'
  | (inl e, st') => (inl e, st')
  end.
Proof.
  revert st; induction p as [a|e|lvl m a k IH|lvl k IH]; intros st; cbn [bind exec];
    [reflexivity | reflexivity | apply IH | apply IH].
Qed.

Lemma sum_app (xs ys : list Z) : sum (xs ++ ys) = sum xs + sum ys.
Proof. unfold sum. rewrite fold_left_app. apply fold_left_add_shift. Qed.

(** ** What a call leaves alone *)

Lemma streams_handle_other (s : nat) (r : LogRecord) (st : State) (h : Handler) :
  sink h <> Stream s -> streams (handle r st h) !! s = streams st !! s.
Proof.
  intros H. unfold handle, emit.
  destruct (hlevel h <=? levelno r); [|reflexivity].
  destruct (format r); [|reflexivity].
  destruct (sink h) as [s'|q']; [|reflexivity].
  cbn [write streams]. apply lookup_insert_ne. congruence.
Qed.

Lemma queues_handle_other (q : nat) (r : LogRecord) (st : State) (h : Handler) :
  sink h <> Queue q -> queues (handle r st h) !! q = queues st !! q.
Proof.
  intros H. unfold handle, emit.
  destruct (hlevel h <=? levelno r); [|reflexivity].
  destruct (format r); [|reflexivity].
  destruct (sink h) as [s'|q']; [reflexivity|].
  cbn [put_nowait queues]. apply lookup_insert_ne. congruence.
Qed.

Lemma errors_handle (r : LogRecord) (st : State) (h : Handler) :
  is_Some (format r) -> errors (handle r st h) = errors st.
Proof.
  intros [text H]. unfold handle, emit. rewrite H.
  destruct (hlevel h <=? levelno r); [|reflexivity].
  destruct (sink h); reflexivity.
Qed.

(** The part of a state that a delivery to handlers other than those on
    the sink [k] cannot change. *)
Lemma frame_fold_handle (k : Sink) (r : LogRecord) (hs : list Handler) (st : State) :
  is_Some (format r) ->
  Forall (fun h => sink h <> k) hs ->
  errors (fold_left (handle r) hs st) = errors st /\
  match k with
  | Stream s => streams (fold_left (handle r) hs st) !! s = streams st !! s
  | Queue q => queues (fold_left (handle r) hs st) !! q = queues st !! q
  end.
Proof.
  intros Hf H; revert st; induction H as [|h hs Hh _ IH]; intros st; cbn [fold_left].
  - now destruct k.
  - destruct (IH (handle r st h)) as [-> Hk]. rewrite errors_handle by exact Hf.
    split; [reflexivity|]. destruct k as [s|q]; rewrite Hk.
    + now apply streams_handle_other.
    + now apply queues_handle_other.
Qed.

Lemma frame_log_debug (k : Sink) (m : string) (a : list value) (st : State) :
  is_Some (getMessage (mkRecord DEBUG m (Some a))) ->
  Forall (fun h => sink h <> k) (found st) ->
  errors (log DEBUG m a st) = errors st /\
  match k with
  | Stream s => streams (log DEBUG m a st) !! s = streams st !! s
  | Queue q => queues (log DEBUG m a st) !! q = queues st !! q
  end.
Proof.
  intros Hf H. unfold log. destruct (isEnabledFor DEBUG st).
  - unfold callHandlers. destruct (found st) eqn:E.
    + now destruct k.
    + now apply frame_fold_handle.
  - now destruct k.
Qed.

Lemma frame_add (k : Sink) (xs : list Z) (st : State) :
  Forall (fun h => sink h <> k) (found st) ->
  config (snd (exec (add xs) st)) = config st /\
  errors (snd (exec (add xs) st)) = errors st /\
  match k with
  | Stream s => streams (snd (exec (add xs) st)) !! s = streams st !! s
  | Queue q => queues (snd (exec (add xs) st)) !! q = queues st !! q
  end.
Proof.
  intros H. rewrite exec_add. cbn [snd].
  set (st1 := log DEBUG "Calculating the sum of %s" [VTuple xs] st).
  assert (Hc : config st1 = config st) by apply config_log.
  split; [now rewrite config_log|].
  destruct (frame_log_debug k "Calculating the sum of %s" [VTuple xs] st) as [E1 K1];
    [rewrite getMessage_inputs; eauto | exact H |].
  destruct (frame_log_debug k "Result is %d" [VInt (sum xs)] st1) as [E2 K2];
    [rewrite getMessage_result; eauto | now rewrite (found_config st1 st Hc) |].
  fold st1 in E1, K1. split; [now rewrite E2|].
  destruct k; now rewrite K2.
Qed.



(** ** The texts tell the values apart *)









(** ** What a fixture leaves behind *)

Lemma remove_app_last (h : Handler) (hs : list Handler) :
  Forall (fun h' => sink h' <> sink h) hs -> remove h (hs ++ [h]) = hs.
Proof.
  induction 1 as [|h' hs Hh' _ IH]; cbn [app remove].
  - now rewrite bool_decide_eq_true_2.
  - rewrite bool_decide_eq_false_2 by congruence. now rewrite IH.
Qed.

Lemma after_fixture_eq (h : Handler) (xs : list Z) (st : State) :
  after_fixture h xs st
  = removeHandler h (snd (exec (add xs) (addHandler h (setLevel DEBUG st)))).
Proof. unfold after_fixture. rewrite exec_add. reflexivity. Qed.

Lemma config_after_fixture (h : Handler) (xs : list Z) (st : State) :
  unused (sink h) st = true ->
  config (after_fixture h xs st) = config (setLevel DEBUG st).
Proof.
  intros Hu. destruct (unused_handlers _ _ Hu) as [F _].
  rewrite after_fixture_eq.
  set (st1 := addHandler h (setLevel DEBUG st)).
  assert (Hc : config (snd (exec (add xs) st1)) = config st1).
  { rewrite exec_add. cbn [snd]. now rewrite !config_log. }
  apply config_fields in Hc as (Hd & Hr & Hl).
  unfold removeHandler, with_logger, config. cbn [disable root logger].
  rewrite Hd, Hr, Hl. unfold st1.
  rewrite (addHandler_new h (setLevel DEBUG st)) by exact F.
  cbn. now rewrite remove_app_last.
Qed.

Lemma found_addHandler_other (k : Sink) (h : Handler) (st : State) :
  unused k st = true -> unused (sink h) st = true -> sink h <> k ->
  Forall (fun h' => sink h' <> k) (found (addHandler h (setLevel DEBUG st))).
Proof.
  intros Hk Hh Hne.
  destruct (unused_handlers _ _ Hk) as [K1 K2].
  destruct (unused_handlers _ _ Hh) as [F _].
  rewrite (addHandler_new h (setLevel DEBUG st)) by exact F.
  unfold found. cbn.
  rewrite !Forall_app. repeat split; [exact K1 | now constructor |].
  destruct (propagate (logger st)); [exact K2 | constructor].
Qed.

Lemma sinks_addHandler (h : Handler) (st : State) :
  streams (addHandler h st) = streams st /\ queues (addHandler h st) = queues st.
Proof. unfold addHandler. now destruct (bool_decide (h ∈ handlers (logger st))). Qed.

Lemma unused_after_fixture (k : Sink) (h : Handler) (xs : list Z) (st : State) :
  unused k st = true -> unused (sink h) st = true -> sink h <> k ->
  unused k (after_fixture h xs st) = true.
Proof.
  intros Hk Hh Hne.
  assert (Hc := config_after_fixture h xs st Hh).
  apply config_fields in Hc as (_ & Hr & Hl).
  destruct (frame_add k xs (addHandler h (setLevel DEBUG st))) as (_ & _ & Hs);
    [now apply found_addHandler_other|].
  destruct (sinks_addHandler h (setLevel DEBUG st)) as [Hst Hqu].
  unfold unused in Hk |- *. rewrite Hr, Hl. cbn [setLevel with_logger logger root handlers].
  apply andb_prop in Hk as [Hk1 Hk2]. rewrite Hk1. cbn [andb].
  rewrite after_fixture_eq.
  destruct k as [s|q]; cbn [removeHandler with_logger streams queues];
    rewrite Hs; [rewrite Hst | rewrite Hqu]; exact Hk2.
Qed.

Lemma check_log_file_value (xs : list Z) (log : nat) (st : State) :
  unused (Stream log) st = true ->
  check_log_file xs log st
  = (inr (sum xs),
     if isEnabledFor DEBUG (setLevel DEBUG st)
     then [inputs_text xs; result_text (sum xs)] else []).
Proof.
  intros Hu. rewrite (surjective_pairing (check_log_file xs log st)).
  rewrite (check_log_file_lines xs log st Hu). now rewrite check_log_file_eq.
Qed.

Lemma check_log_queue_value (xs : list Z) (q : nat) (st : State) :
  unused (Queue q) st = true ->
  check_log_queue xs q st
  = (inr (sum xs),
     if isEnabledFor DEBUG (setLevel DEBUG st)
     then Some (inputs_text xs, result_text (sum xs)) else None).
Proof.
  intros Hu. rewrite (surjective_pairing (check_log_queue xs q st)).
  rewrite (check_log_queue_messages xs q st Hu). now rewrite check_log_queue_eq.
Qed.

Lemma isEnabledFor_setLevel_disable (st : State) :
  DEBUG <= disable st -> isEnabledFor DEBUG (setLevel DEBUG st) = false.
Proof.
  intros H. unfold isEnabledFor. cbn [setLevel with_logger logger disabled disable].
  destruct (disabled (logger st)); [reflexivity|].
  destruct (Z.leb_spec DEBUG (disable st)); [reflexivity | lia].
Qed.


(** * Properties of the command line *)







(** * Properties of [add] *)

(** Adding the results of two calls gives what one call on all the
    arguments returns. *)
Theorem add_of_partial_sums (xs ys : list Z) (st : State) :
  fst (exec (a <- add xs ;; b <- add ys ;; add [a; b]) st)
  = fst (exec (add (xs ++ ys)) st).
Proof.
  rewrite exec_bind, exec_add, exec_bind, exec_add, !exec_add. cbn [fst].
  rewrite sum_app. unfold sum at 1. cbn [fold_left]. reflexivity.
Qed.






(** * Properties of the tests *)

(** A fixture removes the handler it attached but does not restore the
    level: it leaves the configuration that [setLevel(DEBUG)] alone would
    leave, when its sink was new. *)
Theorem fixture_cleanup (h : Handler) (xs : list Z) (st : State) :
  unused (sink h) st = true ->
  handlers (logger (after_fixture h xs st)) = handlers (logger st) /\
  level (logger (after_fixture h xs st)) = DEBUG /\
  root (after_fixture h xs st) = root st /\
  disable (after_fixture h xs st) = disable st.
Proof.
  intros Hu. assert (Hc := config_after_fixture h xs st Hu).
  apply config_fields in Hc as (Hd & Hr & Hl).
  rewrite Hd, Hr, Hl. now repeat split.
Qed.

Lemma fixture_cleanup_witness :
  handlers (logger (after_fixture (StreamHandler 3%nat) [1; 2; 3] initial))
  = handlers (logger initial) /\
  level (logger (after_fixture (StreamHandler 3%nat) [1; 2; 3] initial)) = DEBUG /\
  root (after_fixture (StreamHandler 3%nat) [1; 2; 3] initial) = root initial /\
  disable (after_fixture (StreamHandler 3%nat) [1; 2; 3] initial) = disable initial.
Proof.
  apply (fixture_cleanup (StreamHandler 3%nat) [1; 2; 3] initial). reflexivity.
Defined.



(** Once [logging.disable] has been raised to [DEBUG] or above, both log
    tests fail whatever sum they expect: nothing reaches their sinks. *)
Theorem log_tests_fail_when_disabled (params : list Z) (expected_sum : Z)
        (log q : nat) (st : State) :
  unused (Stream log) st = true ->
  unused (Queue q) st = true ->
  DEBUG <= disable st ->
  test_add_check_log_file params expected_sum log st = false /\
  test_add_check_log_queue params expected_sum q st = false.
Proof.
  intros Hs Hq Hm.
  unfold test_add_check_log_file, test_add_check_log_queue.
  rewrite (check_log_file_value _ _ _ Hs), (check_log_queue_value _ _ _ Hq).
  rewrite (isEnabledFor_setLevel_disable st Hm). now split.
Qed.

Lemma log_tests_fail_when_disabled_witness :
  test_add_check_log_file [1; 2; 3] 6 3%nat
    (mkState DEBUG (root initial) (logger initial) ∅ ∅ []) = false /\
  test_add_check_log_queue [1; 2; 3] 6 0%nat
    (mkState DEBUG (root initial) (logger initial) ∅ ∅ []) = false.
Proof.
  apply (log_tests_fail_when_disabled [1; 2; 3] 6 3%nat 0%nat
           (mkState DEBUG (root initial) (logger initial) ∅ ∅ []));
    reflexivity || discriminate.
Defined.

(** The queue test does not depend on the stream test having run before
    it: from the state the stream fixture leaves, it reads what it reads
    from the state before. *)
Theorem queue_test_after_file_test (xs ys : list Z) (log q : nat) (st : State) :
  unused (Stream log) st = true ->
  unused (Queue q) st = true ->
  check_log_queue xs q (after_fixture (StreamHandler log) ys st)
  = check_log_queue xs q st.
Proof.
  intros Hs Hq.
  assert (Hu : unused (Queue q) (after_fixture (StreamHandler log) ys st) = true)
    by (apply unused_after_fixture; [exact Hq | exact Hs | discriminate]).
  rewrite (check_log_queue_value _ _ _ Hu), (check_log_queue_value _ _ _ Hq).
  assert (Hc := config_after_fixture (StreamHandler log) ys st Hs).
  apply config_fields in Hc as (Hd & _ & Hl).
  assert (He : isEnabledFor DEBUG (setLevel DEBUG (after_fixture (StreamHandler log) ys st))
               = isEnabledFor DEBUG (setLevel DEBUG st)).
  { unfold isEnabledFor, getEffectiveLevel.
    cbn [setLevel with_logger logger disabled disable level]. now rewrite Hd, Hl. }
  now rewrite He.
Qed.

Lemma queue_test_after_file_test_witness :
  check_log_queue [1; 2; 3] 0%nat (after_fixture (StreamHandler 3%nat) [4; 5] initial)
  = check_log_queue [1; 2; 3] 0%nat initial.
Proof.
  apply (queue_test_after_file_test [1; 2; 3] [4; 5] 3%nat 0%nat initial); reflexivity.
Defined.
